(** * Parametric VaR and CVaR: the risk metrics of [src/risk_metrics.py]

    The module computes Value-at-Risk and Conditional Value-at-Risk
    (expected shortfall) of a fitted Normal or Student-t distribution:
    four functions, each a closed formula over the quantile ([ppf]) and
    the density ([pdf]) that [scipy.stats] supplies for [norm] and [t].

    Conventions of the embedding.
    - A Python float is a real number: arithmetic is exact, rounding is
      not part of the model.  The one place where IEEE arithmetic leaves
      the reals inside these formulas, a division whose divisor is zero,
      is written out: it yields no number ([NonFinite], numpy's inf or
      nan), never an exception.
    - [scipy.stats] is not code of this repository.  Its four entry
      points are the fields of a record [stats]; what they compute is
      stated as the predicates [standard_normal] and [student_t], which
      leave one density and one quantile function each
      ([standard_normal_unique], [student_t_unique]), and [Reference]
      builds functions that satisfy them.
    - The special functions are meaningful on their domain, tail
      probabilities in (0,1) and positive degrees of freedom; statements
      about the number a call returns stay inside it.
    - The default value 0.05 of [alpha] belongs to the call site: the
      functions below take [alpha] as an argument. *)

From Stdlib Require Import Reals Lra Classical IndefiniteDescription.

Local Open Scope R_scope.

(** ** Outcomes of a call *)

(** The error class the specification names.  The source defines no
    exception class and contains no [raise] statement. *)
Inductive exn : Set :=
| InvalidParameter.

(** What a call of one of the four functions produces: a number, an IEEE
    infinity or NaN, or an exception. *)
Inductive outcome : Type :=
| Return (x : R)
| NonFinite
| Raise (e : exn).

Definition bind (o : outcome) (k : R -> outcome) : outcome :=
  match o with
  | Return x => k x
  | NonFinite => NonFinite
  | Raise e => Raise e
  end.

Notation "x <- o ;; k" := (bind o (fun x => k))
  (at level 61, o at next level, right associativity).

(** [x / y] where [x] is a numpy float, which is what the special
    functions return.  A zero divisor gives inf or nan and raises nothing
    (numpy reports it as a warning, which is outside this model), and
    every sum, difference and product that has such an operand is again
    inf or nan. *)
Definition fdiv (x y : R) : outcome :=
  if Req_dec_T y 0 then NonFinite else Return (x / y).

(** ** The special functions of [scipy.stats] *)

(** [norm.ppf(q)], [norm.pdf(x)], [t.ppf(q, df)] and [t.pdf(x, df)], with
    the arguments in the order of the Python calls. *)
Record stats : Type := mkStats {
  norm_ppf : R -> R;
  norm_pdf : R -> R;
  t_ppf : R -> R -> R;
  t_pdf : R -> R -> R
}.

(** ** The four risk metrics *)

Section RiskMetrics.

Variable S : stats.

Definition compute_var_normal (mu sigma alpha : R) : outcome :=
  Return (mu + sigma * norm_ppf S alpha).

Definition compute_cvar_normal (mu sigma alpha : R) : outcome :=
  let z := norm_ppf S alpha in
  r <- fdiv (norm_pdf S z) alpha ;;
  Return (mu - sigma * r).

Definition compute_var_student_t (df loc scale alpha : R) : outcome :=
  Return (loc + scale * t_ppf S alpha df).

Definition compute_cvar_student_t (df loc scale alpha : R) : outcome :=
  let t_q := t_ppf S alpha df in
  let density := t_pdf S t_q df in
  adjustment <- fdiv (df + t_q ^ 2) (df - 1) ;;
  r <- fdiv density alpha ;;
  Return (loc - scale * r * adjustment).

End RiskMetrics.

(** ** What a call is compared with *)




(** ** The distributions behind the special functions *)

(** [F x] tends to 0 as [x] tends to minus infinity. *)
Definition vanishes_on_the_left (F : R -> R) : Prop :=
  forall eps, 0 < eps -> exists M, forall x, x < M -> Rabs (F x) < eps.

(** [cdf] is the distribution function of a law with density [pdf], median
    0 and quantile function [ppf]: its derivative is the density, it
    vanishes on the left, and [ppf] inverts it on (0,1). *)
Record law (pdf cdf ppf : R -> R) : Prop := mkLaw {
  law_deriv : forall x, derivable_pt_lim cdf x (pdf x);
  law_left : vanishes_on_the_left cdf;
  law_median : cdf 0 = 1 / 2;
  law_quantile : forall a, 0 < a < 1 -> cdf (ppf a) = a
}.

(** The shape of the standard normal density, [exp(-x^2/2)], and of the
    Student-t density with [df] degrees of freedom,
    [(1 + x^2/df)^(-(df+1)/2)]. *)
Definition gauss_shape (x : R) : R := exp (- x ^ 2 / 2).

Definition t_shape (df x : R) : R := Rpower (1 + x ^ 2 / df) (- (df + 1) / 2).

(** Modelled from the spec: [norm.pdf] and [norm.ppf] are scipy's, and the
    specification reads them as the standard-normal density and the
    standard-normal inverse cumulative distribution function.  The
    normalising constant [c] is not named: the median at 0 leaves one
    value for it. *)
Definition standard_normal (S : stats) : Prop :=
  exists c cdf,
    0 < c /\
    (forall x, norm_pdf S x = c * gauss_shape x) /\
    law (norm_pdf S) cdf (norm_ppf S).

(** Modelled from the spec: [t.pdf(., df)] and [t.ppf(., df)] are scipy's,
    and the specification reads them as the density and the quantile
    function of the Student-t law with [df] degrees of freedom. *)
Definition student_t (S : stats) (df : R) : Prop :=
  exists c cdf,
    0 < c /\
    (forall x, t_pdf S x df = c * t_shape df x) /\
    law (fun x => t_pdf S x df) cdf (fun a => t_ppf S a df).

(** * Calculus toolbox *)

Lemma dlim_eq (f g : R -> R) (x l l' : R) :
  (forall z, f z = g z) -> l = l' ->
  derivable_pt_lim f x l -> derivable_pt_lim g x l'.
Proof.
  intros Hfg <- H. exact (derivable_pt_lim_ext f g x l Hfg H).
Qed.

Lemma increasing_of_deriv (h h' : R -> R) (a b : R) :
  a < b ->
  (forall c, a <= c <= b -> derivable_pt_lim h c (h' c)) ->
  (forall c, a < c < b -> 0 < h' c) ->
  h a < h b.
Proof.
  intros Hab Hd Hpos.
  destruct (MVT_cor2 h h' a b Hab Hd) as [c [E Hc]].
  specialize (Hpos c Hc).
  assert (0 < h' c * (b - a)) by (apply Rmult_lt_0_compat; lra).
  lra.
Qed.

Lemma nondecreasing_of_deriv (h h' : R -> R) (a b : R) :
  a <= b ->
  (forall c, a <= c <= b -> derivable_pt_lim h c (h' c)) ->
  (forall c, a < c < b -> 0 <= h' c) ->
  h a <= h b.
Proof.
  intros [Hab | ->] Hd Hpos; [| lra].
  destruct (MVT_cor2 h h' a b Hab Hd) as [c [E Hc]].
  specialize (Hpos c Hc).
  assert (0 <= h' c * (b - a)) by (apply Rmult_le_pos; lra).
  lra.
Qed.

Lemma square_deriv (k x : R) : derivable_pt_lim (fun y => k * y ^ 2) x (k * (2 * x)).
Proof.
  refine (dlim_eq _ _ x _ _ _ _
            (derivable_pt_lim_scal _ k x _ (derivable_pt_lim_pow x 2)));
    [reflexivity | simpl; ring].
Qed.

(** ** The two density shapes *)

Lemma gauss_shape_pos (x : R) : 0 < gauss_shape x.
Proof. apply exp_pos. Qed.

Lemma gauss_shape_even (x : R) : gauss_shape (- x) = gauss_shape x.
Proof.
  unfold gauss_shape. replace ((- x) ^ 2) with (x ^ 2) by ring. reflexivity.
Qed.

Lemma gauss_shape_deriv (x : R) :
  derivable_pt_lim gauss_shape x (- x * gauss_shape x).
Proof.
  assert (Hu : derivable_pt_lim (fun y => - y ^ 2 / 2) x (- x)).
  { refine (dlim_eq _ _ x _ _ _ _ (square_deriv (- / 2) x)); intros; field. }
  pose proof (derivable_pt_lim_comp _ exp x _ _ Hu (derivable_pt_lim_exp _)) as Hc.
  refine (dlim_eq _ _ x _ _ _ _ Hc); [reflexivity |].
  unfold gauss_shape. cbv beta. apply Rmult_comm.
Qed.

Lemma t_base_pos (df x : R) : 0 < df -> 0 < 1 + x ^ 2 / df.
Proof.
  intros Hdf. assert (0 <= x ^ 2 / df).
  { apply Rmult_le_pos; [apply pow2_ge_0 | left; apply Rinv_0_lt_compat; exact Hdf]. }
  lra.
Qed.

Lemma t_shape_pos (df x : R) : 0 < t_shape df x.
Proof. apply exp_pos. Qed.

Lemma t_shape_even (df x : R) : t_shape df (- x) = t_shape df x.
Proof.
  unfold t_shape. replace ((- x) ^ 2) with (x ^ 2) by ring. reflexivity.
Qed.

Lemma t_shape_deriv (df x : R) :
  0 < df ->
  derivable_pt_lim (t_shape df) x (- ((df + 1) * x / (df + x ^ 2)) * t_shape df x).
Proof.
  intros Hdf. pose proof (t_base_pos df x Hdf) as Hb.
  assert (Hu : derivable_pt_lim (fun y => 1 + y ^ 2 / df) x (2 * x / df)).
  { refine (dlim_eq _ _ x _ _ _ _
              (derivable_pt_lim_plus _ _ x _ _
                 (derivable_pt_lim_const 1 x) (square_deriv (/ df) x)));
      [intros; unfold plus_fct, fct_cte; field; lra | field; lra]. }
  pose proof (derivable_pt_lim_comp _ (fun u => Rpower u (- (df + 1) / 2)) x _ _ Hu
                (derivable_pt_lim_power _ (- (df + 1) / 2) Hb)) as Hc.
  refine (dlim_eq _ _ x _ _ _ _ Hc); [reflexivity |].
  unfold t_shape.
  replace (- (df + 1) / 2 - 1) with (- (df + 1) / 2 + - (1)) by ring.
  rewrite Rpower_plus, Rpower_Ropp, Rpower_1 by exact Hb.
  assert (0 < df + x ^ 2) by (pose proof (pow2_ge_0 x); lra).
  field. split; lra.
Qed.


(** * The tail of a law

    [F] is a distribution function with density [f], and [g] a positive
    function with [g' = - kappa * x * f]: the partial first moment of the
    law below [x] is [- g x / kappa].  For the normal law [g] is the density
    itself and [kappa = 1]; for the Student-t law [g = f * (df + x^2)] and
    [kappa = df - 1].  The section bounds the tail mass [F x] by [g]
    (the Mills-ratio inequality for the normal law) and derives that the
    expected shortfall lies below the quantile and grows with the tail
    probability. *)

Section Tail.

Variables f F g : R -> R.
Variable kappa : R.
Hypothesis f_pos : forall x, 0 < f x.
Hypothesis F_deriv : forall x, derivable_pt_lim F x (f x).
Hypothesis F_left : vanishes_on_the_left F.
Hypothesis g_pos : forall x, 0 < g x.
Hypothesis g_deriv : forall x, derivable_pt_lim g x (- kappa * x * f x).
Hypothesis kappa_pos : 0 < kappa.

Lemma F_incr (x y : R) : x < y -> F x < F y.
Proof.
  intros Hxy. apply (increasing_of_deriv F f x y Hxy).
  - intros c _. apply F_deriv.
  - intros c _. apply f_pos.
Qed.













Variable Q : R -> R.
Hypothesis Q_inv : forall a, 0 < a < 1 -> F (Q a) = a.


Lemma Q_below_median (m a : R) : F m = 1 / 2 -> 0 < a -> a < 1 / 2 -> Q a < m.
Proof.
  intros Hm Ha Hlt.
  destruct (Rlt_or_le (Q a) m) as [H | H]; [exact H | exfalso].
  assert (F m <= F (Q a)).
  { destruct H as [H | H]; [left; apply F_incr; exact H | right; rewrite H; reflexivity]. }
  rewrite Q_inv in H0; lra.
Qed.



End Tail.

(** ** What the two laws give the risk metrics *)

Lemma normal_pdf_pos (S : stats) (x : R) : standard_normal S -> 0 < norm_pdf S x.
Proof.
  intros (c & cdf & Hc & Hpdf & _). rewrite Hpdf.
  apply Rmult_lt_0_compat; [exact Hc | apply gauss_shape_pos].
Qed.



Lemma normal_quantile_negative (S : stats) (a : R) :
  standard_normal S -> 0 < a -> a < 1 / 2 -> norm_ppf S a < 0.
Proof.
  intros HS. pose proof (normal_pdf_pos S) as Hpos.
  destruct HS as (c & cdf & Hc & Hpdf & [Hd Hl Hm Hq]).
  apply (Q_below_median (norm_pdf S) cdf); auto.
  intros x. apply Hpos. exists c, cdf. auto using mkLaw.
Qed.



Lemma t_pdf_pos (S : stats) (df x : R) : student_t S df -> 0 < t_pdf S x df.
Proof.
  intros (c & cdf & Hc & Hpdf & _). rewrite Hpdf.
  apply Rmult_lt_0_compat; [exact Hc | apply t_shape_pos].
Qed.







(** ** The two predicates name one law each

    Two libraries that satisfy [standard_normal] (or [student_t] at the
    same degrees of freedom) have the same density, and the same quantile
    function on (0,1): the predicates leave no freedom on the domain of
    the special functions. *)

Section OneLaw.

Variable g : R -> R.
Variables c1 c2 : R.
Variables pdf1 cdf1 ppf1 pdf2 cdf2 ppf2 : R -> R.
Hypothesis g_pos : forall x, 0 < g x.
Hypothesis c1_pos : 0 < c1.
Hypothesis c2_pos : 0 < c2.
Hypothesis pdf1_shape : forall x, pdf1 x = c1 * g x.
Hypothesis pdf2_shape : forall x, pdf2 x = c2 * g x.
Hypothesis law1 : law pdf1 cdf1 ppf1.
Hypothesis law2 : law pdf2 cdf2 ppf2.

Let gap (x : R) : R := cdf1 x / c1 - cdf2 x / c2.

Lemma gap_deriv (x : R) : derivable_pt_lim gap x ((fun _ => 0) x).
Proof.
  pose proof (derivable_pt_lim_div_scal _ x _ c1 (law_deriv _ _ _ law1 x)) as H1.
  pose proof (derivable_pt_lim_div_scal _ x _ c2 (law_deriv _ _ _ law2 x)) as H2.
  refine (dlim_eq _ gap x _ _ _ _ (derivable_pt_lim_minus _ _ x _ _ H1 H2));
    [reflexivity |].
  rewrite pdf1_shape, pdf2_shape. field. lra.
Qed.

Lemma gap_constant (x y : R) : gap x = gap y.
Proof.
  destruct (Rtotal_order x y) as [H | [H | H]].
  - destruct (MVT_cor2 gap (fun _ => 0) x y H) as [c [Ec _]];
      [intros; apply gap_deriv | lra].
  - rewrite H; reflexivity.
  - destruct (MVT_cor2 gap (fun _ => 0) y x H) as [c [Ec _]];
      [intros; apply gap_deriv | lra].
Qed.

Lemma gap_small (eps : R) : 0 < eps -> exists x, Rabs (gap x) < eps.
Proof.
  intros He.
  destruct (law_left _ _ _ law1 (c1 * (eps / 2))) as [M1 H1]; [nra |].
  destruct (law_left _ _ _ law2 (c2 * (eps / 2))) as [M2 H2]; [nra |].
  exists (Rmin M1 M2 - 1).
  assert (Hx1 : Rmin M1 M2 - 1 < M1) by (pose proof (Rmin_l M1 M2); lra).
  assert (Hx2 : Rmin M1 M2 - 1 < M2) by (pose proof (Rmin_r M1 M2); lra).
  specialize (H1 _ Hx1). specialize (H2 _ Hx2).
  apply Rabs_def2 in H1. apply Rabs_def2 in H2.
  unfold gap. apply Rabs_def1.
  - assert (cdf1 (Rmin M1 M2 - 1) / c1 < eps / 2).
    { apply (Rmult_lt_reg_r c1); [exact c1_pos |].
      replace (cdf1 (Rmin M1 M2 - 1) / c1 * c1) with (cdf1 (Rmin M1 M2 - 1))
        by (field; lra). lra. }
    assert (- (eps / 2) < cdf2 (Rmin M1 M2 - 1) / c2).
    { apply (Rmult_lt_reg_r c2); [exact c2_pos |].
      replace (cdf2 (Rmin M1 M2 - 1) / c2 * c2) with (cdf2 (Rmin M1 M2 - 1))
        by (field; lra). lra. }
    lra.
  - assert (- (eps / 2) < cdf1 (Rmin M1 M2 - 1) / c1).
    { apply (Rmult_lt_reg_r c1); [exact c1_pos |].
      replace (cdf1 (Rmin M1 M2 - 1) / c1 * c1) with (cdf1 (Rmin M1 M2 - 1))
        by (field; lra). lra. }
    assert (cdf2 (Rmin M1 M2 - 1) / c2 < eps / 2).
    { apply (Rmult_lt_reg_r c2); [exact c2_pos |].
      replace (cdf2 (Rmin M1 M2 - 1) / c2 * c2) with (cdf2 (Rmin M1 M2 - 1))
        by (field; lra). lra. }
    lra.
Qed.

Lemma gap_null (x : R) : gap x = 0.
Proof.
  destruct (Req_dec (gap x) 0) as [E | N]; [exact E | exfalso].
  destruct (gap_small (Rabs (gap x))) as [y Hy]; [apply Rabs_pos_lt; exact N |].
  rewrite (gap_constant y x) in Hy. lra.
Qed.

Lemma one_constant : c1 = c2.
Proof.
  pose proof (gap_null 0) as H. unfold gap in H.
  rewrite (law_median _ _ _ law1), (law_median _ _ _ law2) in H.
  assert (E : 1 / 2 / c1 - 1 / 2 / c2 = (c2 - c1) / (2 * c1 * c2)) by (field; lra).
  rewrite E in H.
  assert (Hn : 2 * c1 * c2 <> 0) by nra.
  apply (Rmult_eq_compat_r (2 * c1 * c2)) in H.
  replace ((c2 - c1) / (2 * c1 * c2) * (2 * c1 * c2)) with (c2 - c1) in H by (field; lra).
  lra.
Qed.

Lemma one_density (x : R) : pdf1 x = pdf2 x.
Proof. rewrite pdf1_shape, pdf2_shape, one_constant. reflexivity. Qed.

Lemma one_distribution (x : R) : cdf1 x = cdf2 x.
Proof.
  pose proof (gap_null x) as H. unfold gap in H. rewrite one_constant in H.
  assert (cdf1 x / c2 * c2 = cdf2 x / c2 * c2) by (f_equal; lra).
  replace (cdf1 x / c2 * c2) with (cdf1 x) in H0 by (field; lra).
  replace (cdf2 x / c2 * c2) with (cdf2 x) in H0 by (field; lra).
  exact H0.
Qed.

Lemma one_quantile (a : R) : 0 < a < 1 -> ppf1 a = ppf2 a.
Proof.
  intros Ha.
  assert (Hpos : forall x, 0 < pdf1 x).
  { intros x. rewrite pdf1_shape. apply Rmult_lt_0_compat; [exact c1_pos | apply g_pos]. }
  pose proof (law_quantile _ _ _ law1 a Ha) as E1.
  pose proof (law_quantile _ _ _ law2 a Ha) as E2.
  rewrite <- one_distribution in E2.
  destruct (Rtotal_order (ppf1 a) (ppf2 a)) as [H | [H | H]]; [exfalso | exact H | exfalso].
  - pose proof (F_incr pdf1 cdf1 Hpos (law_deriv _ _ _ law1) _ _ H). lra.
  - pose proof (F_incr pdf1 cdf1 Hpos (law_deriv _ _ _ law1) _ _ H). lra.
Qed.

End OneLaw.

Lemma standard_normal_unique (S S' : stats) :
  standard_normal S -> standard_normal S' ->
  (forall x, norm_pdf S x = norm_pdf S' x) /\
  (forall a, 0 < a < 1 -> norm_ppf S a = norm_ppf S' a).
Proof.
  intros (c1 & cdf1 & Hc1 & Hp1 & L1) (c2 & cdf2 & Hc2 & Hp2 & L2). split.
  - intros x.
    exact (one_density gauss_shape c1 c2 _ cdf1 _ _ cdf2 _ Hc1 Hc2 Hp1 Hp2 L1 L2 x).
  - intros a.
    exact (one_quantile gauss_shape c1 c2 _ cdf1 _ _ cdf2 _
             gauss_shape_pos Hc1 Hc2 Hp1 Hp2 L1 L2 a).
Qed.

Lemma student_t_unique (S S' : stats) (df : R) :
  student_t S df -> student_t S' df ->
  (forall x, t_pdf S x df = t_pdf S' x df) /\
  (forall a, 0 < a < 1 -> t_ppf S a df = t_ppf S' a df).
Proof.
  intros (c1 & cdf1 & Hc1 & Hp1 & L1) (c2 & cdf2 & Hc2 & Hp2 & L2). split.
  - intros x.
    exact (one_density (t_shape df) c1 c2 _ cdf1 _ _ cdf2 _ Hc1 Hc2 Hp1 Hp2 L1 L2 x).
  - intros a.
    exact (one_quantile (t_shape df) c1 c2 _ cdf1 _ _ cdf2 _
             (t_shape_pos df) Hc1 Hc2 Hp1 Hp2 L1 L2 a).
Qed.

(** * A reference implementation of the special functions

    The standard normal law and the Student-t laws built from their
    density shapes: the distribution function is the integral of the
    shape from minus infinity, normalised to total mass 1, and the
    quantile function is its inverse.  They give the claims below concrete
    special functions to be applied to. *)

Module Reference.

(** A continuous, positive, even shape whose left tail is integrable:
    beyond [cut] it is dominated by the derivative [major'] of a function
    [major] that is bounded below. *)
Record density : Type := mkDensity {
  shape :> R -> R;
  shape_cont : continuity shape;
  shape_pos : forall x, 0 < shape x;
  shape_even : forall x, shape (- x) = shape x;
  cut : R;
  major : R -> R;
  major' : R -> R;
  major_deriv : forall x, x <= cut -> derivable_pt_lim major x (major' x);
  major_dom : forall x, x <= cut -> shape x <= major' x;
  major_nonneg : forall x, x <= cut -> 0 <= major x
}.

Section FromDensity.

Variable d : density.

Definition integrable (a c : R) : Riemann_integrable d a c :=
  match Rle_dec a c with
  | left H =>
      continuity_implies_RiemannInt H (fun x _ => shape_cont d x)
  | right H =>
      RiemannInt_P1
        (continuity_implies_RiemannInt
           (Rlt_le c a (Rnot_le_lt a c H)) (fun x _ => shape_cont d x))
  end.

(** The mass between 0 and [x], signed. *)
Definition mass (x : R) : R := RiemannInt (integrable 0 x).

Lemma mass_0 : mass 0 = 0.
Proof. apply RiemannInt_P9. Qed.

Lemma mass_chasles (a y : R) :
  RiemannInt (integrable a y) - RiemannInt (integrable a 0) = mass y.
Proof.
  unfold mass.
  pose proof (RiemannInt_P26 (integrable a 0) (integrable 0 y) (integrable a y)).
  lra.
Qed.

Lemma mass_deriv (x : R) : derivable_pt_lim mass x (d x).
Proof.
  set (a := - (Rabs x + 1)). set (c := Rabs x + 1).
  pose proof (Rabs_pos x) as Hp.
  assert (Hx : a < x < c).
  { unfold a, c. destruct (Rabs_def2 x (Rabs x + 1)); lra. }
  assert (h : a <= c) by lra.
  assert (C0 : forall y, a <= y <= c -> continuity_pt d y)
    by (intros; apply shape_cont).
  pose proof (RiemannInt_P27 h C0 Hx) as Hd.
  assert (Hloc : forall y, a < y < c ->
            primitive h (FTC_P1 h C0) y - RiemannInt (integrable a 0) = mass y).
  { intros y Hy. rewrite <- (mass_chasles a y). f_equal.
    unfold primitive.
    destruct (Rle_dec a y) as [H1 | H1]; [| lra].
    destruct (Rle_dec y c) as [H2 | H2]; [| lra].
    apply RiemannInt_P5. }
  apply (derivable_pt_lim_locally_ext
           (fun y => primitive h (FTC_P1 h C0) y - RiemannInt (integrable a 0))
           mass x a c);
    [exact Hx | exact Hloc |].
  refine (dlim_eq _ _ x _ _ _ _
            (derivable_pt_lim_minus _ _ x _ _ Hd
               (derivable_pt_lim_const (RiemannInt (integrable a 0)) x)));
    [reflexivity | ring].
Qed.

Lemma mass_incr (x y : R) : x < y -> mass x < mass y.
Proof.
  intros Hxy. apply (increasing_of_deriv mass d x y Hxy).
  - intros; apply mass_deriv.
  - intros; apply shape_pos.
Qed.

Lemma mass_odd (x : R) : mass (- x) = - mass x.
Proof.
  set (D := fun y => mass y + mass (- y)).
  assert (HD : forall y, derivable_pt_lim D y ((fun _ => 0) y)).
  { intros y. unfold D.
    assert (Hm : derivable_pt_lim (fun y => mass (- y)) y (- d y)).
    { assert (Hn : derivable_pt_lim (fun y => - y) y (-1)).
      { apply (dlim_eq (- id)%F _ y (- 1)); [reflexivity | ring |].
        apply derivable_pt_lim_opp, derivable_pt_lim_id. }
      pose proof (derivable_pt_lim_comp _ mass y _ _ Hn (mass_deriv (- y))) as Hc.
      refine (dlim_eq _ _ y _ _ _ _ Hc); [reflexivity |].
      rewrite shape_even. ring. }
    refine (dlim_eq _ _ y _ _ _ _
              (derivable_pt_lim_plus _ _ y _ _ (mass_deriv y) Hm));
      [reflexivity | ring]. }
  assert (HD0 : D 0 = 0) by (unfold D; rewrite Ropp_0, mass_0; ring).
  assert (E : D x = D 0).
  { destruct (Rtotal_order 0 x) as [H | [H | H]].
    - destruct (MVT_cor2 D (fun _ => 0) 0 x H) as [c [Ec _]]; [intros; apply HD | lra].
    - rewrite H; reflexivity.
    - destruct (MVT_cor2 D (fun _ => 0) x 0 H) as [c [Ec _]]; [intros; apply HD | lra]. }
  unfold D in E, HD0. lra.
Qed.

Lemma mass_bounded (x : R) : - mass x <= major d (cut d) - mass (cut d).
Proof.
  destruct (Rle_or_lt x (cut d)) as [H | H].
  - pose proof (nondecreasing_of_deriv (fun y => major d y - mass y)
                  (fun y => major' d y - d y) x (cut d) H) as Hm.
    pose proof (major_nonneg d x H).
    assert (major d x - mass x <= major d (cut d) - mass (cut d)); [| lra].
    apply Hm.
    + intros c Hc.
      apply (derivable_pt_lim_minus (major d) mass c);
        [apply major_deriv; lra | apply mass_deriv].
    + intros c Hc. pose proof (major_dom d c). lra.
  - pose proof (mass_incr (cut d) x H).
    pose proof (major_nonneg d (cut d)). lra.
Qed.

(** The masses of the left tails [(x, 0)], and their least upper bound:
    the mass of the negative half-line. *)
Definition tails (y : R) : Prop := exists x, y = - mass x.

Lemma tails_bound : bound tails.
Proof.
  exists (major d (cut d) - mass (cut d)). intros y [x ->]. apply mass_bounded.
Qed.

Lemma tails_inhabited : exists y, tails y.
Proof. exists (- mass 0), 0. reflexivity. Qed.

Definition half_mass : R :=
  proj1_sig (completeness tails tails_bound tails_inhabited).

Lemma half_mass_lub : is_lub tails half_mass.
Proof. unfold half_mass. destruct (completeness _ _ _); assumption. Qed.

Lemma half_mass_upper (x : R) : - mass x < half_mass.
Proof.
  destruct half_mass_lub as [Hub _].
  assert (- mass (x - 1) <= half_mass) by (apply Hub; exists (x - 1); reflexivity).
  pose proof (mass_incr (x - 1) x). lra.
Qed.

Lemma half_mass_pos : 0 < half_mass.
Proof. pose proof (half_mass_upper 0) as H. rewrite mass_0 in H. lra. Qed.

Lemma half_mass_approx (eps : R) :
  0 < eps -> exists x, half_mass - eps < - mass x.
Proof.
  intros He. apply NNPP. intros Hn.
  destruct half_mass_lub as [_ Hl].
  assert (Hub : is_upper_bound tails (half_mass - eps)).
  { intros y [x ->].
    destruct (Rle_or_lt (- mass x) (half_mass - eps)) as [H | H];
      [exact H | exfalso; apply Hn; exists x; exact H]. }
  specialize (Hl _ Hub). lra.
Qed.

(** The normalising constant, the density and the distribution function
    of the law of total mass 1. *)
Definition unit_const : R := / (2 * half_mass).

Definition unit_pdf (x : R) : R := unit_const * d x.

Definition unit_cdf (x : R) : R := (half_mass + mass x) / (2 * half_mass).

Lemma unit_const_pos : 0 < unit_const.
Proof. apply Rinv_0_lt_compat. pose proof half_mass_pos. lra. Qed.

Lemma unit_pdf_pos (x : R) : 0 < unit_pdf x.
Proof.
  apply Rmult_lt_0_compat; [apply unit_const_pos | apply shape_pos].
Qed.

Lemma unit_cdf_deriv (x : R) : derivable_pt_lim unit_cdf x (unit_pdf x).
Proof.
  pose proof half_mass_pos as HL.
  assert (Hs : derivable_pt_lim (fun y => half_mass + mass y) x (d x)).
  { refine (dlim_eq _ _ x _ _ _ _
              (derivable_pt_lim_plus _ _ x _ _
                 (derivable_pt_lim_const half_mass x) (mass_deriv x)));
      [reflexivity | ring]. }
  refine (dlim_eq _ _ x _ _ _ _
            (derivable_pt_lim_div_scal _ x _ (2 * half_mass) Hs));
    [reflexivity | unfold unit_pdf, unit_const; field; lra].
Qed.

Lemma unit_cdf_incr (x y : R) : x < y -> unit_cdf x < unit_cdf y.
Proof.
  intros Hxy. apply (increasing_of_deriv unit_cdf unit_pdf x y Hxy).
  - intros; apply unit_cdf_deriv.
  - intros; apply unit_pdf_pos.
Qed.

Lemma unit_cdf_pos (x : R) : 0 < unit_cdf x.
Proof.
  unfold unit_cdf. pose proof half_mass_pos. pose proof (half_mass_upper x).
  apply Rdiv_lt_0_compat; lra.
Qed.

Lemma unit_cdf_left : vanishes_on_the_left unit_cdf.
Proof.
  intros eps He. pose proof half_mass_pos as HL.
  destruct (half_mass_approx (eps * (2 * half_mass))) as [x1 H1]; [nra |].
  exists x1. intros x Hx.
  pose proof (unit_cdf_pos x) as Hp. rewrite Rabs_pos_eq by lra.
  pose proof (mass_incr x x1 Hx).
  unfold unit_cdf. apply (Rmult_lt_reg_r (2 * half_mass)); [lra |].
  replace ((half_mass + mass x) / (2 * half_mass) * (2 * half_mass))
    with (half_mass + mass x) by (field; lra).
  lra.
Qed.

Lemma unit_cdf_median : unit_cdf 0 = 1 / 2.
Proof. unfold unit_cdf. rewrite mass_0. pose proof half_mass_pos. field. lra. Qed.

Lemma unit_cdf_mirror (x : R) : unit_cdf (- x) = 1 - unit_cdf x.
Proof. unfold unit_cdf. rewrite mass_odd. pose proof half_mass_pos. field. lra. Qed.

Lemma unit_cdf_continuity : continuity unit_cdf.
Proof.
  intros x. apply derivable_continuous_pt. exists (unit_pdf x). apply unit_cdf_deriv.
Qed.

Lemma unit_cdf_onto (a : R) : 0 < a < 1 -> exists x, unit_cdf x = a.
Proof.
  intros Ha.
  destruct (unit_cdf_left a) as [M1 H1]; [lra |].
  destruct (unit_cdf_left (1 - a)) as [M2 H2]; [lra |].
  set (lo := Rmin (M1 - 1) (- 1)).
  set (hi := - Rmin (M2 - 1) (- 1)).
  assert (Hlo : unit_cdf lo < a).
  { specialize (H1 lo). pose proof (unit_cdf_pos lo).
    rewrite Rabs_pos_eq in H1 by lra.
    apply H1. unfold lo. pose proof (Rmin_l (M1 - 1) (- 1)). lra. }
  assert (Hhi : a < unit_cdf hi).
  { specialize (H2 (- hi)). pose proof (unit_cdf_pos (- hi)).
    rewrite Rabs_pos_eq in H2 by lra. rewrite unit_cdf_mirror in H2.
    assert (1 - unit_cdf hi < 1 - a); [| lra].
    apply H2. unfold hi. rewrite Ropp_involutive.
    pose proof (Rmin_l (M2 - 1) (- 1)). lra. }
  assert (Hlh : lo < hi).
  { unfold lo, hi. pose proof (Rmin_r (M1 - 1) (- 1)).
    pose proof (Rmin_r (M2 - 1) (- 1)). lra. }
  destruct (IVT (fun x => unit_cdf x - a) lo hi) as [z [_ Hz]].
  - intros x. apply continuity_pt_minus; [apply unit_cdf_continuity |].
    apply continuity_pt_const. intros ? ?. reflexivity.
  - exact Hlh.
  - lra.
  - lra.
  - exists z. lra.
Qed.

(** The quantile function: the inverse of [unit_cdf] on (0,1); the value
    0 elsewhere is a placeholder. *)
Definition unit_ppf (a : R) : R :=
  match Rlt_dec 0 a, Rlt_dec a 1 with
  | left H0, left H1 =>
      proj1_sig (constructive_indefinite_description _ (unit_cdf_onto a (conj H0 H1)))
  | _, _ => 0
  end.

Lemma unit_cdf_ppf (a : R) : 0 < a < 1 -> unit_cdf (unit_ppf a) = a.
Proof.
  intros [H0 H1]. unfold unit_ppf.
  destruct (Rlt_dec 0 a) as [h0 | n]; [| contradiction].
  destruct (Rlt_dec a 1) as [h1 | n]; [| contradiction].
  destruct (constructive_indefinite_description _ _) as [x Hx]. exact Hx.
Qed.

Lemma unit_law : law unit_pdf unit_cdf unit_ppf.
Proof.
  constructor.
  - apply unit_cdf_deriv.
  - apply unit_cdf_left.
  - apply unit_cdf_median.
  - apply unit_cdf_ppf.
Qed.

End FromDensity.

(** ** The standard normal law *)

Lemma gauss_shape_cont : continuity gauss_shape.
Proof.
  intros x. apply derivable_continuous_pt.
  exists (- x * gauss_shape x). apply gauss_shape_deriv.
Qed.

(** [exp (-x^2/2) <= exp (x + 1/2)], as [(x + 1)^2 >= 0]. *)
Definition gauss_major (x : R) : R := exp (x + 1 / 2).

Lemma gauss_major_deriv (x : R) :
  x <= 0 -> derivable_pt_lim gauss_major x (gauss_major x).
Proof.
  intros _.
  assert (Hu : derivable_pt_lim (fun y => y + 1 / 2) x 1).
  { refine (dlim_eq _ _ x _ _ _ _
              (derivable_pt_lim_plus _ _ x _ _
                 (derivable_pt_lim_id x) (derivable_pt_lim_const (1 / 2) x)));
      [reflexivity | ring]. }
  pose proof (derivable_pt_lim_comp _ exp x _ _ Hu (derivable_pt_lim_exp _)) as Hc.
  refine (dlim_eq _ _ x _ _ _ _ Hc); [reflexivity |].
  unfold gauss_major. cbv beta. apply Rmult_1_r.
Qed.

Lemma gauss_major_dom (x : R) : x <= 0 -> gauss_shape x <= gauss_major x.
Proof.
  intros _. unfold gauss_shape, gauss_major.
  assert (H : - x ^ 2 / 2 <= x + 1 / 2).
  { pose proof (pow2_ge_0 (x + 1)) as Hsq.
    replace ((x + 1) ^ 2) with (x ^ 2 + 2 * x + 1) in Hsq by ring. lra. }
  destruct H as [H | H]; [left; apply exp_increasing; exact H | right; rewrite H; reflexivity].
Qed.

Lemma gauss_major_nonneg (x : R) : x <= 0 -> 0 <= gauss_major x.
Proof. intros _. left. apply exp_pos. Qed.

Definition gauss_density : density :=
  mkDensity gauss_shape gauss_shape_cont gauss_shape_pos gauss_shape_even
    0 gauss_major gauss_major gauss_major_deriv gauss_major_dom gauss_major_nonneg.

(** ** The Student-t laws *)

Section StudentT.

Variable df : R.
Hypothesis df_pos : 0 < df.

Lemma t_shape_cont : continuity (t_shape df).
Proof.
  intros x. apply derivable_continuous_pt.
  exists (- ((df + 1) * x / (df + x ^ 2)) * t_shape df x).
  apply t_shape_deriv. exact df_pos.
Qed.

(** Beyond [- (df + 2)] the shape is dominated by the derivative of
    [2 / df * (- x) * shape x]. *)
Definition t_major (x : R) : R := 2 / df * (- x * t_shape df x).

Definition t_major' (x : R) : R := 2 * t_shape df x * ((x ^ 2 - 1) / (df + x ^ 2)).

Lemma t_major_deriv (x : R) :
  x <= - (df + 2) -> derivable_pt_lim t_major x (t_major' x).
Proof.
  intros _.
  assert (Hn : derivable_pt_lim (fun y => - y) x (-1)).
  { apply (dlim_eq (- id)%F _ x (- 1)); [reflexivity | ring |].
    apply derivable_pt_lim_opp, derivable_pt_lim_id. }
  pose proof (derivable_pt_lim_mult _ _ x _ _ Hn (t_shape_deriv df x df_pos)) as Hm.
  pose proof (derivable_pt_lim_scal _ (2 / df) x _ Hm) as Hs.
  refine (dlim_eq _ _ x _ _ _ _ Hs); [reflexivity |].
  unfold t_major'.
  assert (0 < df + x ^ 2) by (pose proof (pow2_ge_0 x); lra).
  field. split; lra.
Qed.

Lemma t_major_dom (x : R) : x <= - (df + 2) -> t_shape df x <= t_major' x.
Proof.
  intros Hx. unfold t_major'.
  pose proof (t_shape_pos df x) as Hg.
  assert (Hden : 0 < df + x ^ 2) by (pose proof (pow2_ge_0 x); lra).
  assert (Hq : 1 / 2 <= (x ^ 2 - 1) / (df + x ^ 2)).
  { apply (Rmult_le_reg_r (df + x ^ 2)); [exact Hden |].
    replace ((x ^ 2 - 1) / (df + x ^ 2) * (df + x ^ 2)) with (x ^ 2 - 1) by (field; lra).
    nra. }
  nra.
Qed.

Lemma t_major_nonneg (x : R) : x <= - (df + 2) -> 0 <= t_major x.
Proof.
  intros Hx. unfold t_major. pose proof (t_shape_pos df x).
  apply Rmult_le_pos.
  - left. apply Rdiv_lt_0_compat; lra.
  - apply Rmult_le_pos; lra.
Qed.

Definition t_density : density :=
  mkDensity (t_shape df) t_shape_cont (t_shape_pos df) (t_shape_even df)
    (- (df + 2)) t_major t_major' t_major_deriv t_major_dom t_major_nonneg.

End StudentT.

(** ** The special functions *)

(** Modelled from the spec: the four entry points of scipy, as the laws
    built above.  For [df <= 0], where scipy answers nan, the value 0 is
    a placeholder. *)
Definition scipy : stats := {|
  norm_ppf := unit_ppf gauss_density;
  norm_pdf := unit_pdf gauss_density;
  t_ppf := fun q df =>
    match Rlt_dec 0 df with
    | left H => unit_ppf (t_density df H) q
    | right _ => 0
    end;
  t_pdf := fun x df =>
    match Rlt_dec 0 df with
    | left H => unit_pdf (t_density df H) x
    | right _ => 0
    end
|}.

Lemma scipy_standard_normal : standard_normal scipy.
Proof.
  exists (unit_const gauss_density), (unit_cdf gauss_density).
  split; [apply unit_const_pos |]. split; [reflexivity |].
  apply (unit_law gauss_density).
Qed.

Lemma scipy_student_t (df : R) : 0 < df -> student_t scipy df.
Proof.
  intros Hdf. unfold student_t, scipy. simpl.
  destruct (Rlt_dec 0 df) as [H | N]; [| contradiction].
  exists (unit_const (t_density df H)), (unit_cdf (t_density df H)).
  split; [apply unit_const_pos |]. split; [reflexivity |].
  apply (unit_law (t_density df H)).
Qed.

End Reference.

(** * The calls, evaluated *)

Lemma fdiv_returns (x y : R) : y <> 0 -> fdiv x y = Return (x / y).
Proof.
  intros Hy. unfold fdiv.
  destruct (Req_dec_T y 0) as [E | _]; [contradiction | reflexivity].
Qed.

Lemma fdiv_by_zero (x : R) : fdiv x 0 = NonFinite.
Proof.
  unfold fdiv.
  destruct (Req_dec_T 0 0) as [_ | N]; [reflexivity | contradiction N; reflexivity].
Qed.

Lemma fdiv_never_raises (x y : R) (e : exn) : fdiv x y <> Raise e.
Proof.
  unfold fdiv. destruct (Req_dec_T y 0); discriminate.
Qed.

Lemma compute_cvar_normal_returns (S : stats) (mu sigma alpha : R) :
  alpha <> 0 ->
  compute_cvar_normal S mu sigma alpha
  = Return (mu - sigma * (norm_pdf S (norm_ppf S alpha) / alpha)).
Proof.
  intros Ha. unfold compute_cvar_normal. cbv zeta.
  rewrite (fdiv_returns _ _ Ha). reflexivity.
Qed.

Lemma compute_cvar_student_t_returns (S : stats) (df loc scale alpha : R) :
  df <> 1 -> alpha <> 0 ->
  compute_cvar_student_t S df loc scale alpha
  = Return (loc - scale * (t_pdf S (t_ppf S alpha df) df / alpha)
                  * ((df + t_ppf S alpha df ^ 2) / (df - 1))).
Proof.
  intros Hdf Ha. unfold compute_cvar_student_t. cbv zeta.
  rewrite (fdiv_returns _ (df - 1)) by lra.
  simpl bind. rewrite (fdiv_returns _ _ Ha). reflexivity.
Qed.

Lemma compute_cvar_student_t_never_raises (S : stats) (df loc scale alpha : R) (e : exn) :
  compute_cvar_student_t S df loc scale alpha <> Raise e.
Proof.
  unfold compute_cvar_student_t, fdiv. cbv zeta.
  destruct (Req_dec_T (df - 1) 0); simpl; [discriminate |].
  destruct (Req_dec_T alpha 0); simpl; discriminate.
Qed.

(** * Properties of the risk metrics *)

(** ** Input validation (C1, C3) *)

(** C1, as the code has it: for degrees of freedom at most 1, any
    location, a positive scale and a tail probability in (0,1),
    [compute_cvar_student_t] raises no exception, the code has no guard.
    For degrees of freedom in (0,1) it returns the number
    [loc - scale * (density / alpha) * adjust] with
    [adjust = (df + q^2) / (df - 1)]; at exactly 1 the divisor [df - 1] is
    zero and the result is not a finite number. *)
Theorem compute_cvar_student_t_unguarded (S : stats) (df loc scale alpha : R) :
  df <= 1 -> 0 < scale -> 0 < alpha < 1 ->
  (forall e, compute_cvar_student_t S df loc scale alpha <> Raise e) /\
  (0 < df < 1 ->
     compute_cvar_student_t S df loc scale alpha
     = Return (loc - scale * (t_pdf S (t_ppf S alpha df) df / alpha)
                     * ((df + t_ppf S alpha df ^ 2) / (df - 1)))) /\
  (df = 1 -> compute_cvar_student_t S df loc scale alpha = NonFinite).
Proof.
  intros Hdf Hscale Halpha. split; [| split].
  - intros e. apply compute_cvar_student_t_never_raises.
  - intros Hlt. apply compute_cvar_student_t_returns; lra.
  - intros ->. unfold compute_cvar_student_t. cbv zeta.
    replace (1 - 1) with 0 by ring. rewrite fdiv_by_zero. reflexivity.
Qed.

(** The theorem at the boundary inputs of the specification,
    [(0.5, 0, 1, 0.05)]. *)
Lemma compute_cvar_student_t_unguarded_witness :
  (forall e, compute_cvar_student_t Reference.scipy (1 / 2) 0 1 (1 / 20) <> Raise e) /\
  compute_cvar_student_t Reference.scipy (1 / 2) 0 1 (1 / 20)
  = Return (0 - 1 * (t_pdf Reference.scipy (t_ppf Reference.scipy (1 / 20) (1 / 2)) (1 / 2)
                     / (1 / 20))
                  * ((1 / 2 + t_ppf Reference.scipy (1 / 20) (1 / 2) ^ 2) / (1 / 2 - 1))).
Proof.
  destruct (compute_cvar_student_t_unguarded Reference.scipy (1 / 2) 0 1 (1 / 20))
    as (Hraise & Hvalue & _); [lra | lra | lra |].
  split; [exact Hraise | apply Hvalue; lra].
Defined.

(** C1 does not hold of the code: at [df = 0.5], location 0, scale 1 and
    [alpha = 0.05] the call does not raise [InvalidParameter]; it returns
    a finite number, and a positive one. *)
Lemma compute_cvar_student_t_accepts_half_df :
  compute_cvar_student_t Reference.scipy (1 / 2) 0 1 (1 / 20) <> Raise InvalidParameter /\
  exists x, compute_cvar_student_t Reference.scipy (1 / 2) 0 1 (1 / 20) = Return x /\ 0 < x.
Proof.
  split; [apply compute_cvar_student_t_never_raises |].
  eexists. split; [apply compute_cvar_student_t_returns; lra |].
  assert (Hst : student_t Reference.scipy (1 / 2)) by (apply Reference.scipy_student_t; lra).
  pose proof (t_pdf_pos Reference.scipy (1 / 2)
                (t_ppf Reference.scipy (1 / 20) (1 / 2)) Hst) as Hd.
  pose proof (pow2_ge_0 (t_ppf Reference.scipy (1 / 20) (1 / 2))) as Hq.
  set (d := t_pdf Reference.scipy (t_ppf Reference.scipy (1 / 20) (1 / 2)) (1 / 2)) in *.
  set (q2 := t_ppf Reference.scipy (1 / 20) (1 / 2) ^ 2) in *.
  replace (0 - 1 * (d / (1 / 20)) * ((1 / 2 + q2) / (1 / 2 - 1)))
    with (40 * (d * (1 / 2 + q2))) by field.
  assert (0 < d * (1 / 2 + q2)) by (apply Rmult_lt_0_compat; lra).
  lra.
Qed.

(** C3, as the code has it: [compute_var_normal] has no validation.  With
    a standard deviation that is not positive, or a tail probability
    outside (0,1), it raises no exception; it evaluates the quantile
    unconditionally, and for a tail probability in (0,1) it returns
    [mu + sigma * ppf alpha] whatever the sign of [sigma]. *)
Theorem compute_var_normal_unguarded (S : stats) (mu sigma alpha : R) :
  sigma <= 0 \/ ~ (0 < alpha < 1) ->
  (forall e, compute_var_normal S mu sigma alpha <> Raise e) /\
  (0 < alpha < 1 ->
     compute_var_normal S mu sigma alpha = Return (mu + sigma * norm_ppf S alpha)).
Proof.
  intros _. split.
  - intros e. unfold compute_var_normal. discriminate.
  - intros _. reflexivity.
Qed.

(** The theorem at mean 0, standard deviation -1 and [alpha = 0.05]. *)
Lemma compute_var_normal_unguarded_witness :
  (forall e, compute_var_normal Reference.scipy 0 (- 1) (1 / 20) <> Raise e) /\
  compute_var_normal Reference.scipy 0 (- 1) (1 / 20)
  = Return (0 + - 1 * norm_ppf Reference.scipy (1 / 20)).
Proof.
  destruct (compute_var_normal_unguarded Reference.scipy 0 (- 1) (1 / 20))
    as (Hraise & Hvalue); [left; lra |].
  split; [exact Hraise | apply Hvalue; lra].
Defined.

(** C3 does not hold of the code: with standard deviation -1 (mean 0,
    [alpha = 0.05]) the call does not raise [InvalidParameter]; it returns
    a number, the quantile with its sign turned. *)
Lemma compute_var_normal_accepts_negative_stddev :
  compute_var_normal Reference.scipy 0 (- 1) (1 / 20) <> Raise InvalidParameter /\
  exists x, compute_var_normal Reference.scipy 0 (- 1) (1 / 20) = Return x /\ 0 < x.
Proof.
  split; [discriminate |].
  eexists. split; [reflexivity |].
  pose proof (normal_quantile_negative Reference.scipy (1 / 20)
                Reference.scipy_standard_normal) as H.
  lra.
Qed.

(** ** The formulas (C2, C4, C5) *)

(** C2: for degrees of freedom above 1, a positive scale and a tail
    probability in (0,1), [compute_cvar_student_t] returns
    [loc - scale * (density / alpha) * adjust], where [q] is the Student-t
    quantile [t.ppf(alpha, df)], [density = t.pdf(q, df)] and
    [adjust = (df + q^2) / (df - 1)]. *)
Theorem compute_cvar_student_t_formula (S : stats) (df loc scale alpha : R) :
  1 < df -> 0 < scale -> 0 < alpha < 1 ->
  let q := t_ppf S alpha df in
  let density := t_pdf S q df in
  let adjust := (df + q ^ 2) / (df - 1) in
  compute_cvar_student_t S df loc scale alpha
  = Return (loc - scale * (density / alpha) * adjust).
Proof.
  intros Hdf Hscale Halpha. cbv zeta.
  apply compute_cvar_student_t_returns; lra.
Qed.

(** The theorem at the end-to-end scenario of the specification:
    [df = 5], location 0.001, scale 0.015, [alpha = 0.05]. *)
Lemma compute_cvar_student_t_formula_witness :
  compute_cvar_student_t Reference.scipy 5 (1 / 1000) (15 / 1000) (1 / 20)
  = Return (1 / 1000
            - 15 / 1000
              * (t_pdf Reference.scipy (t_ppf Reference.scipy (1 / 20) 5) 5 / (1 / 20))
              * ((5 + t_ppf Reference.scipy (1 / 20) 5 ^ 2) / (5 - 1))).
Proof.
  apply (compute_cvar_student_t_formula Reference.scipy 5 (1 / 1000) (15 / 1000) (1 / 20));
    lra.
Defined.



(** C5: for a positive standard deviation and a tail probability in
    (0,1), [compute_cvar_normal] returns
    [mu - sigma * pdf (ppf alpha) / alpha], with [pdf] and [ppf] the
    density and the quantile function that [norm] supplies. *)
Theorem compute_cvar_normal_formula (S : stats) (mu sigma alpha : R) :
  0 < sigma -> 0 < alpha < 1 ->
  compute_cvar_normal S mu sigma alpha
  = Return (mu - sigma * norm_pdf S (norm_ppf S alpha) / alpha).
Proof.
  intros Hsigma Halpha.
  rewrite compute_cvar_normal_returns by lra.
  f_equal. field. lra.
Qed.

Lemma compute_cvar_normal_formula_witness :
  compute_cvar_normal Reference.scipy (1 / 1000) (2 / 100) (1 / 20)
  = Return (1 / 1000
            - 2 / 100 * norm_pdf Reference.scipy (norm_ppf Reference.scipy (1 / 20))
              / (1 / 20)).
Proof.
  apply (compute_cvar_normal_formula Reference.scipy (1 / 1000) (2 / 100) (1 / 20)); lra.
Defined.

(** ** Relations between the metrics (C6, C7, C8, C10) *)







(** ** Purity (C9) *)


(** ** Location and scale (C10) *)



(** * Further properties of the risk metrics *)

(** ** Symmetry of the two laws *)

Section SymmetricLaw.

Variables pdf cdf ppf : R -> R.
Hypothesis pdf_pos : forall x, 0 < pdf x.
Hypothesis pdf_even : forall x, pdf (- x) = pdf x.
Hypothesis the_law : law pdf cdf ppf.






End SymmetricLaw.









(** ** The partial first moment of a law

    [M] is the partial first moment of the law with density [f],
    [M x] being the integral of [t * f t] over [t <= x]: its derivative is
    [x * f x] and it vanishes on the left.  With [g' = - kappa * x * f]
    and [g] vanishing on the left as well, [M = - g / kappa]: the
    closed formulas of the two CVaR functions are the conditional means of
    the laws below their quantiles. *)

Section Moment.

Variables f g M : R -> R.
Variable kappa : R.
Hypothesis g_deriv : forall x, derivable_pt_lim g x (- kappa * x * f x).
Hypothesis g_left : vanishes_on_the_left g.
Hypothesis M_deriv : forall x, derivable_pt_lim M x (x * f x).
Hypothesis M_left : vanishes_on_the_left M.






End Moment.










(** ** CVaR against VaR *)







(** ** The CVaR formulas are conditional means *)





(** ** The two tails *)









(** ** A zero tail probability *)

(** X10: with [alpha = 0] both CVaR functions divide by zero: whatever
    the other arguments, the result is not a finite number and no
    exception is raised. *)
Theorem cvar_at_zero_alpha (S : stats) (mu sigma df loc scale : R) :
  compute_cvar_normal S mu sigma 0 = NonFinite /\
  compute_cvar_student_t S df loc scale 0 = NonFinite.
Proof.
  unfold compute_cvar_normal, compute_cvar_student_t. cbv zeta. split.
  - rewrite fdiv_by_zero. reflexivity.
  - unfold fdiv at 1. destruct (Req_dec_T (df - 1) 0); [reflexivity |].
    simpl bind. rewrite fdiv_by_zero. reflexivity.
Qed.

(** ** More scale, more risk *)



(** ** The VaR is the quantile of the fitted law *)





(** ** No finite worst case *)




(** * The VaR overlay of the histogram ([src/visualization.py])

    [plot_histogram_with_fits] draws two vertical lines on the histogram
    of the returns, at [var_n] and [var_t], which it computes itself from
    the fitted parameter tuples (lines 34 to 38).  The drawing calls of
    matplotlib and seaborn are not modelled; [var_lines] is the pair of
    positions handed to [ax.axvline]. *)

Module Visualization.

Section Overlay.

Variable S : stats.

(** [normal_params] is the pair (mean, standard deviation) and [t_params]
    the triple (df, loc, scale), indexed as the source indexes them. *)
Definition var_lines (normal_params : R * R) (t_params : R * R * R) (alpha : R) : R * R :=
  let var_n := fst normal_params + snd normal_params * norm_ppf S alpha in
  let var_t := snd (fst t_params) + snd t_params * t_ppf S alpha (fst (fst t_params)) in
  (var_n, var_t).

End Overlay.

End Visualization.

(** X14: the two VaR lines of the histogram are the numbers the risk
    engine returns for the same fits: the first is
    [compute_var_normal mu sigma alpha], the second
    [compute_var_student_t df loc scale alpha], with the tuples read in
    the order (mean, standard deviation) and (df, loc, scale). *)
Theorem var_lines_agree_with_engine (S : stats) (mu sigma df loc scale alpha : R) :
  compute_var_normal S mu sigma alpha
  = Return (fst (Visualization.var_lines S (mu, sigma) (df, loc, scale) alpha)) /\
  compute_var_student_t S df loc scale alpha
  = Return (snd (Visualization.var_lines S (mu, sigma) (df, loc, scale) alpha)).
Proof.
  split; reflexivity.
Qed.



(** * Fetching the price history ([src/api.py])

    [fetch_historical_data] asks the CoinGecko API for the market chart of
    a coin and turns the answer into a table of four columns.  The HTTP
    exchange and the calls into [time] and [pandas] are parameters of the
    model; the control flow, the two checks and the way the columns are
    cut out of the payload are the source's. *)

From Stdlib Require Import ZArith String List DecimalString.

Module Api.

Import ListNotations.

(** The exceptions the function raises itself ([ValueError]) or lets
    through: a missing dictionary key, and whatever a library call
    raises. *)
Inductive error : Type :=
| ValueError (msg : string)
| KeyError (key : string)
| LibraryError (msg : string).

Inductive result (A : Type) : Type :=
| Ok (a : A)
| Failed (e : error).

Arguments Ok {A} a.
Arguments Failed {A} e.

Definition and_then {A B : Type} (r : result A) (k : A -> result B) : result B :=
  match r with
  | Ok a => k a
  | Failed e => Failed e
  end.

Notation "x <~ r ;; k" := (and_then r (fun x => k))
  (at level 61, r at next level, right associativity).

(** A list comprehension whose element expression may raise: the first
    failure wins. *)
Fixpoint traverse {A B : Type} (f : A -> result B) (l : list A) : result (list B) :=
  match l with
  | [] => Ok []
  | a :: l' => b <~ f a ;; bs <~ traverse f l' ;; Ok (b :: bs)
  end.

Section Fetch.

(** A JSON value of a series (a number, or null), which the function only
    copies; the time structure of [time.gmtime]; a pandas timestamp. *)
Variables value struct_time datetime : Type.

(** One series of the payload: a list of [[timestamp, value]] pairs, the
    timestamp in milliseconds. *)
Definition series : Type := list (Z * value).

(** The JSON object of the answer, a dictionary from keys to series. *)
Definition payload : Type := list (string * series).

Record response : Type := mkResponse {
  status_code : Z;
  text : string;
  json : result payload
}.

(** The table the function returns. *)
Record frame : Type := mkFrame {
  snapped_at : list datetime;
  price : list value;
  market_cap : list value;
  total_volume : list value
}.

(** [requests.get(url, params=params)], [time.gmtime(seconds)],
    [time.strftime(format, t)] and [pd.to_datetime(text, utc=True)] on one
    entry of a column. *)
Variable requests_get : string -> list (string * string) -> result response.
Variable gmtime : R -> result struct_time.
Variable strftime : string -> struct_time -> string.
Variable to_datetime : string -> result datetime.

(** [key in data] and [data[key]] on a dictionary. *)
Fixpoint lookup (key : string) (data : payload) : option series :=
  match data with
  | [] => None
  | (k, v) :: rest => if String.eqb key k then Some v else lookup key rest
  end.

Definition contains (data : payload) (key : string) : bool :=
  match lookup key data with
  | Some _ => true
  | None => false
  end.

Definition item (data : payload) (key : string) : result series :=
  match lookup key data with
  | Some v => Ok v
  | None => Failed (KeyError key)
  end.

Definition base_url : string := "https://api.coingecko.com/api/v3".

Definition endpoint (coin_id : string) : string :=
  ("/coins/" ++ coin_id ++ "/market_chart")%string.

Definition params (vs_currency : string) : list (string * string) :=
  [("vs_currency", vs_currency); ("days", "max"); ("interval", "daily")]%string.

Definition str_of_int (n : Z) : string := NilZero.string_of_int (Z.to_int n).

(** [pd.DataFrame] of a dictionary of columns: the columns must have one
    length. *)
Definition data_frame (stamps : list string) (p m v : list value)
  : result (list string * list value * list value * list value) :=
  if (Nat.eqb (length stamps) (length p) && Nat.eqb (length p) (length m)
      && Nat.eqb (length m) (length v))%bool
  then Ok (stamps, p, m, v)
  else Failed (ValueError "All arrays must be of the same length").

Definition fetch_historical_data (coin_id vs_currency : string) : result frame :=
  response <~ requests_get (base_url ++ endpoint coin_id)%string (params vs_currency) ;;
  if negb (Z.eqb (status_code response) 200)
  then Failed (ValueError ("API request failed with status "
                           ++ str_of_int (status_code response) ++ ": "
                           ++ text response)%string)
  else
    data <~ json response ;;
    if negb (forallb (contains data) ["prices"; "market_caps"; "total_volumes"]%string)
    then Failed (ValueError "Incomplete data returned from API")
    else
      prices <~ item data "prices" ;;
      stamps <~ traverse
                  (fun entry : Z * value =>
                     t <~ gmtime (IZR (fst entry) / 1000) ;;
                     Ok (strftime "%Y-%m-%d %H:%M:%S UTC" t))
                  prices ;;
      market_caps <~ item data "market_caps" ;;
      total_volumes <~ item data "total_volumes" ;;
      df <~ data_frame stamps (map snd prices) (map snd market_caps)
              (map snd total_volumes) ;;
      times <~ traverse to_datetime (fst (fst (fst df))) ;;
      Ok (mkFrame times (snd (fst (fst df))) (snd (fst df)) (snd df)).

(** The three keys the function asks for. *)
Definition required_keys : list string :=
  ["prices"; "market_caps"; "total_volumes"]%string.


Lemma contains_all (data : payload) :
  forallb (contains data) required_keys = true <->
  exists prices caps vols,
    lookup "prices" data = Some prices /\
    lookup "market_caps" data = Some caps /\
    lookup "total_volumes" data = Some vols.
Proof.
  unfold required_keys, contains. simpl. split.
  - destruct (lookup "prices" data) as [p |]; [| discriminate].
    destruct (lookup "market_caps" data) as [m |]; [| discriminate].
    destruct (lookup "total_volumes" data) as [v |]; [| discriminate].
    intros _. exists p, m, v. repeat split.
  - intros (p & m & v & -> & -> & ->). reflexivity.
Qed.

(** The function once the answer has status 200 and carries the three
    series. *)
Lemma fetch_with_payload (coin_id vs_currency : string) (r : response)
    (data : payload) (prices caps vols : series) :
  requests_get (base_url ++ endpoint coin_id)%string (params vs_currency) = Ok r ->
  status_code r = 200%Z -> json r = Ok data ->
  lookup "prices" data = Some prices ->
  lookup "market_caps" data = Some caps ->
  lookup "total_volumes" data = Some vols ->
  fetch_historical_data coin_id vs_currency
  = (stamps <~ traverse
                 (fun entry : Z * value =>
                    t <~ gmtime (IZR (fst entry) / 1000) ;;
                    Ok (strftime "%Y-%m-%d %H:%M:%S UTC" t))
                 prices ;;
     df <~ data_frame stamps (map snd prices) (map snd caps) (map snd vols) ;;
     times <~ traverse to_datetime (fst (fst (fst df))) ;;
     Ok (mkFrame times (snd (fst (fst df))) (snd (fst df)) (snd df))).
Proof.
  intros Hget Hstatus Hjson Hp Hm Hv.
  unfold fetch_historical_data. rewrite Hget. cbn [and_then].
  rewrite Hstatus. cbn [negb]. cbv iota. rewrite Hjson. cbn [and_then].
  assert (Hall : forallb (contains data) required_keys = true).
  { apply contains_all. exists prices, caps, vols. auto. }
  unfold required_keys in Hall. rewrite Hall. cbn [negb]. cbv iota.
  unfold item. rewrite Hp, Hm, Hv. cbn [and_then].
  destruct (traverse _ prices); reflexivity.
Qed.

(** X16: an answer whose status is not 200 raises [ValueError] with the
    status and the body text in the message, whatever the body holds; the
    body is not parsed. *)
Theorem fetch_rejects_bad_status (coin_id vs_currency : string) (r : response) :
  requests_get (base_url ++ endpoint coin_id)%string (params vs_currency) = Ok r ->
  status_code r <> 200%Z ->
  fetch_historical_data coin_id vs_currency
  = Failed (ValueError ("API request failed with status "
                        ++ str_of_int (status_code r) ++ ": " ++ text r)%string).
Proof.
  intros Hget Hstatus. unfold fetch_historical_data. rewrite Hget. cbn [and_then].
  destruct (Z.eqb_spec (status_code r) 200) as [E | _]; [contradiction | reflexivity].
Qed.

(** X17: an answer with status 200 whose JSON object lacks one of the keys
    [prices], [market_caps] and [total_volumes] raises
    [ValueError "Incomplete data returned from API"]; no series is read
    and no library call is made before. *)
Theorem fetch_rejects_missing_key (coin_id vs_currency : string) (r : response)
    (data : payload) (key : string) :
  requests_get (base_url ++ endpoint coin_id)%string (params vs_currency) = Ok r ->
  status_code r = 200%Z -> json r = Ok data ->
  In key required_keys -> lookup key data = None ->
  fetch_historical_data coin_id vs_currency
  = Failed (ValueError "Incomplete data returned from API").
Proof.
  intros Hget Hstatus Hjson Hin Hnone.
  unfold fetch_historical_data. rewrite Hget. cbn [and_then].
  rewrite Hstatus. cbn [negb]. cbv iota. rewrite Hjson. cbn [and_then].
  assert (Hall : forallb (contains data) required_keys = false).
  { destruct (forallb (contains data) required_keys) eqn:E; [exfalso | reflexivity].
    rewrite forallb_forall in E. specialize (E key Hin).
    unfold contains in E. rewrite Hnone in E. discriminate. }
  unfold required_keys in Hall. rewrite Hall. reflexivity.
Qed.


(** X19: an empty history is no error.  With status 200 and three empty
    series the function returns the table with no rows, and calls neither
    [time.gmtime] nor [pd.to_datetime] on any entry. *)
Theorem fetch_empty_history (coin_id vs_currency : string) (r : response)
    (data : payload) :
  requests_get (base_url ++ endpoint coin_id)%string (params vs_currency) = Ok r ->
  status_code r = 200%Z -> json r = Ok data ->
  lookup "prices" data = Some [] ->
  lookup "market_caps" data = Some [] ->
  lookup "total_volumes" data = Some [] ->
  fetch_historical_data coin_id vs_currency = Ok (mkFrame [] [] [] []).
Proof.
  intros Hget Hstatus Hjson Hp Hm Hv.
  rewrite (fetch_with_payload _ _ r data [] [] [] Hget Hstatus Hjson Hp Hm Hv).
  reflexivity.
Qed.

(** X20: series of different lengths are refused.  With status 200 and
    the three keys present, if the timestamps of the prices convert but
    the three series do not have one length, the table constructor raises
    [ValueError]: no shorter table is built. *)
Theorem fetch_rejects_ragged_series (coin_id vs_currency : string) (r : response)
    (data : payload) (prices caps vols : series) (stamps : list string) :
  requests_get (base_url ++ endpoint coin_id)%string (params vs_currency) = Ok r ->
  status_code r = 200%Z -> json r = Ok data ->
  lookup "prices" data = Some prices ->
  lookup "market_caps" data = Some caps ->
  lookup "total_volumes" data = Some vols ->
  traverse (fun entry : Z * value =>
              t <~ gmtime (IZR (fst entry) / 1000) ;;
              Ok (strftime "%Y-%m-%d %H:%M:%S UTC" t)) prices = Ok stamps ->
  length caps <> length prices \/ length vols <> length prices ->
  fetch_historical_data coin_id vs_currency
  = Failed (ValueError "All arrays must be of the same length").
Proof.
  intros Hget Hstatus Hjson Hp Hm Hv Hstamps Hlen.
  rewrite (fetch_with_payload _ _ r data prices caps vols Hget Hstatus Hjson Hp Hm Hv).
  rewrite Hstamps. cbn [and_then]. unfold data_frame.
  destruct (Nat.eqb (length stamps) (length (map snd prices))
            && Nat.eqb (length (map snd prices)) (length (map snd caps))
            && Nat.eqb (length (map snd caps)) (length (map snd vols)))%bool eqn:E;
    [exfalso | reflexivity].
  apply andb_prop in E. destruct E as [E H3].
  apply andb_prop in E. destruct E as [H1 H2].
  apply Nat.eqb_eq in H1, H2, H3.
  repeat rewrite length_map in H1. repeat rewrite length_map in H2.
  repeat rewrite length_map in H3.
  destruct Hlen as [Hc | Hc]; apply Hc; congruence.
Qed.

End Fetch.

(** ** The theorems on concrete answers

    A server that gives one fixed answer, and stand-ins for the library
    calls that accept every entry. *)

Definition answers (status : Z) (body : string) (data : result (payload Z))
  : string -> list (string * string) -> result (response Z) :=
  fun _ _ => Ok (mkResponse Z status body data).

Definition gmtime_any (seconds : R) : result R := Ok seconds.

Definition strftime_any (format : string) (t : R) : string := format.

Definition to_datetime_any (stamp : string) : result string := Ok stamp.

(** Two price points, with market caps and volumes stamped at other
    times. *)
Definition two_points : payload Z :=
  [("prices", [(1000, 7); (2000, 8)]);
   ("market_caps", [(1, 70); (2, 80)]);
   ("total_volumes", [(5000, 700); (6000, 800)])]%string%Z.

Definition no_points : payload Z :=
  [("prices", []); ("market_caps", []); ("total_volumes", [])]%string.

Definition ragged_points : payload Z :=
  [("prices", [(1000, 7); (2000, 8)]);
   ("market_caps", [(1000, 70)]);
   ("total_volumes", [(1000, 700); (2000, 800)])]%string%Z.

Lemma fetch_rejects_bad_status_witness :
  fetch_historical_data Z R string
    (answers 404 "Not Found" (Ok two_points)) gmtime_any strftime_any to_datetime_any
    "bitcoin" "usd"
  = Failed (ValueError "API request failed with status 404: Not Found").
Proof.
  apply (fetch_rejects_bad_status Z R string
           (answers 404 "Not Found" (Ok two_points)) gmtime_any strftime_any to_datetime_any
           "bitcoin" "usd" (mkResponse Z 404 "Not Found" (Ok two_points)));
    [reflexivity | discriminate].
Defined.

Lemma fetch_rejects_missing_key_witness :
  fetch_historical_data Z R string
    (answers 200 "" (Ok [("prices", [(1000, 7)]); ("total_volumes", [(1000, 700)])]%string%Z))
    gmtime_any strftime_any to_datetime_any "bitcoin" "usd"
  = Failed (ValueError "Incomplete data returned from API").
Proof.
  apply (fetch_rejects_missing_key Z R string
           (answers 200 ""
              (Ok [("prices", [(1000, 7)]); ("total_volumes", [(1000, 700)])]%string%Z))
           gmtime_any strftime_any to_datetime_any "bitcoin" "usd"
           (mkResponse Z 200 ""
              (Ok [("prices", [(1000, 7)]); ("total_volumes", [(1000, 700)])]%string%Z))
           [("prices", [(1000, 7)]); ("total_volumes", [(1000, 700)])]%string%Z
           "market_caps");
    [reflexivity | reflexivity | reflexivity | right; left; reflexivity | reflexivity].
Defined.


Lemma fetch_empty_history_witness :
  fetch_historical_data Z R string
    (answers 200 "" (Ok no_points)) gmtime_any strftime_any to_datetime_any
    "bitcoin" "usd"
  = Ok (mkFrame Z string [] [] [] []).
Proof.
  apply (fetch_empty_history Z R string
           (answers 200 "" (Ok no_points)) gmtime_any strftime_any to_datetime_any
           "bitcoin" "usd" (mkResponse Z 200 "" (Ok no_points)) no_points);
    reflexivity.
Defined.

Lemma fetch_rejects_ragged_series_witness :
  fetch_historical_data Z R string
    (answers 200 "" (Ok ragged_points)) gmtime_any strftime_any to_datetime_any
    "bitcoin" "usd"
  = Failed (ValueError "All arrays must be of the same length").
Proof.
  apply (fetch_rejects_ragged_series Z R string
           (answers 200 "" (Ok ragged_points)) gmtime_any strftime_any to_datetime_any
           "bitcoin" "usd" (mkResponse Z 200 "" (Ok ragged_points)) ragged_points
           [(1000, 7); (2000, 8)]%Z [(1000, 70)]%Z [(1000, 700); (2000, 800)]%Z
           ["%Y-%m-%d %H:%M:%S UTC"; "%Y-%m-%d %H:%M:%S UTC"]%string);
    try reflexivity.
  left. simpl. discriminate.
Defined.

End Api.
